(** * scripts/connect.cpp: opening a database and a connection

    The program is one function, [main]: inside a [try] block it constructs
    a [DuckDB] object on a fixed file name and a [Connection] on it, lets both
    go out of scope, and returns 0; a handler for [std::exception] prints the
    message and returns 1.

    The embedding is shallow.  C++ statements are terms of a small monad [M]
    that threads the process state (what the engine stores, an instrumentation
    log, the two output streams) and carries exceptions.  The rules of the
    language that the program relies on are combinators of that monad:
    [scoped] (an object with automatic storage: constructor, body, destructor
    on scope exit and on unwinding) and [try_catch] (a handler selected by the
    type of the thrown value).  The embedded engine (duckdb.hpp) is not part of
    the repository: it is the type class [Engine]. *)

From Stdlib Require Import ZArith.
From stdpp Require Import base option strings list gmap.

Local Open Scope Z_scope.
Local Open Scope string_scope.
Local Open Scope list_scope.

(** ** Values that a C++ expression can throw *)

(** The two kinds of failure the engine documents for the operations the
    program uses, and a third for every other class under [std::exception]. *)
Inductive error_kind : Type :=
  | OpenIOError
  | ConnectionError
  | OtherError.

(** An object of a class derived from [std::exception]; [what] is the result
    of its member function [what()]. *)
Record std_exception : Type := StdExc {
  kind : error_kind;
  what : string
}.

(** A thrown value is an object derived from [std::exception], or a value of
    any other type (an [int], a string literal, a class of its own). *)
Inductive thrown : Type :=
  | Std (ex : std_exception)
  | NonStd (repr : string).

(** How a statement completes when it does not throw: control reaches its
    end, or it executed [return n]. *)
Inductive completion : Type :=
  | Fallthrough
  | Return (n : Z).

(** How the process ends: [main] returned [n], or an exception left [main]
    and [std::terminate] was called. *)
Inductive outcome : Type :=
  | Exit (code : Z)
  | Terminate (t : thrown).

(** ** The embedded engine, as the program sees it (duckdb.hpp) *)

(** [St] is whatever the engine keeps outside the program (files, locks,
    sessions); [D] and [C] are the classes [DuckDB] and [Connection].  A
    constructor returns the object or the value it throws, with the engine
    state it leaves; destructors do not throw. *)
Class Engine (St D C : Type) : Type := {
  DuckDB_ctor : string -> St -> (thrown + D) * St;
  Connection_ctor : D -> St -> (thrown + C) * St;
  Connection_dtor : C -> St -> St;
  DuckDB_dtor : D -> St -> St
}.

(** What the C++ standard leaves to the implementation and the program can
    observe: when no handler matches a thrown value, whether the stack is
    unwound (destructors run) before [std::terminate] is called. *)
Class Implementation : Type := {
  unwinds_before_terminate : bool
}.

(** ** Statements: a state and exception monad *)

Inductive result (A : Type) : Type :=
  | Normal (a : A)
  | Throw (t : thrown).
Arguments Normal {A} a.
Arguments Throw {A} t.

(** The handlers of the enclosing [try] blocks, as the search for a handler
    sees them: does one of them match this thrown value? *)
Definition handlers : Type := thrown -> bool.

Definition no_handler : handlers := fun _ => false.

Definition matches {X : Type} (sel : thrown -> option X) (t : thrown) : bool :=
  match sel t with
  | Some _ => true
  | None => false
  end.

(** The character that [std::endl] inserts. *)
Definition endl : string := String (Ascii.ascii_of_nat 10) EmptyString.

Section Program.
Context {St D C : Type} `{!Engine St D C} `{!Implementation}.

(** Instrumentation: the calls the program makes into the engine, in the
    order it makes them, and the entries into a handler.  [EvQuery] is
    [Connection::Query], which only the commented-out lines 11 to 21 call. *)
Inductive event : Type :=
  | EvDuckDB_enter (path : string)
  | EvDuckDB_done (db : D)
  | EvConnection_enter (db : D)
  | EvConnection_done (con : C)
  | EvConnection_dtor (con : C)
  | EvDuckDB_dtor (db : D)
  | EvQuery (con : C) (sql : string)
  | EvCaught (t : thrown).

Record state : Type := State {
  store : St;
  log : list event;
  cerr : string;
  cout : string
}.

Definition set_store (st : St) (s : state) : state :=
  {| store := st; log := log s; cerr := cerr s; cout := cout s |}.

Definition add_log (e : event) (s : state) : state :=
  {| store := store s; log := log s ++ [e]; cerr := cerr s; cout := cout s |}.

Definition add_cerr (text : string) (s : state) : state :=
  {| store := store s; log := log s; cerr := cerr s +:+ text; cout := cout s |}.

Definition M (A : Type) : Type := handlers -> state -> result A * state.

Definition ret {A : Type} (a : A) : M A := fun _ s => (Normal a, s).

Definition bind {A B : Type} (m : M A) (k : A -> M B) : M B :=
  fun hs s =>
    match m hs s with
    | (Normal a, s1) => k a hs s1
    | (Throw t, s1) => (Throw t, s1)
    end.

Definition emit (e : event) : M unit := fun _ s => (Normal tt, add_log e s).

(** A call into the engine that may throw. *)
Definition engine_call {A : Type} (op : St -> (thrown + A) * St) : M A :=
  fun _ s =>
    match op (store s) with
    | (inl t, st1) => (Throw t, set_store st1 s)
    | (inr a, st1) => (Normal a, set_store st1 s)
    end.

(** [std::cerr << text] *)
Definition cerr_insert (text : string) : M unit :=
  fun _ s => (Normal tt, add_cerr text s).

(** Statement sequencing: [return] skips what follows. *)
Definition seq (s1 s2 : M completion) : M completion :=
  bind s1 (fun c =>
    match c with
    | Return n => ret (Return n)
    | Fallthrough => s2
    end).

(** A block that declares an object with automatic storage duration and
    runs [body] in its scope.  If the constructor throws there is no object
    and no destructor call.  The destructor runs when the body completes,
    and when the body throws and the stack is unwound: a handler of an
    enclosing [try] matches, or the implementation unwinds anyway. *)
Definition scoped {X A : Type}
    (ctor : M X) (dtor : X -> state -> state) (body : X -> M A) : M A :=
  fun hs s =>
    match ctor hs s with
    | (Throw t, s1) => (Throw t, s1)
    | (Normal x, s1) =>
        match body x hs s1 with
        | (Normal a, s2) => (Normal a, dtor x s2)
        | (Throw t, s2) =>
            (Throw t, if hs t || unwinds_before_terminate then dtor x s2 else s2)
        end
    end.

(** [try { body } catch (X &ex) { handler }]: [sel] is the match of the
    handler's parameter type against the thrown value.  A value the handler
    does not match keeps propagating. *)
Definition try_catch {X A : Type}
    (body : M A) (sel : thrown -> option X) (handler : X -> M A) : M A :=
  fun hs s =>
    match body (fun t => matches sel t || hs t) s with
    | (Normal a, s1) => (Normal a, s1)
    | (Throw t, s1) =>
        match sel t with
        | Some ex => handler ex hs (add_log (EvCaught t) s1)
        | None => (Throw t, s1)
        end
    end.
End Program.

Arguments event : clear implicits.
Arguments state : clear implicits.
Arguments M : clear implicits.

Declare Scope cxx_scope.
Delimit Scope cxx_scope with cxx.
Notation "x <- m ;; k" := (bind m (fun x => k))
  (at level 100, m at next level, right associativity) : cxx_scope.
Notation "m ;; k" := (bind m (fun _ => k))
  (at level 100, right associativity) : cxx_scope.

(** ** The program (scripts/connect.cpp) *)

Section Connect.
Context {St D C : Type} `{!Engine St D C} `{!Implementation}.

Local Open Scope cxx_scope.

(** [DuckDB db(path);]: the constructor call, instrumented. *)
Definition new_DuckDB (path : string) : M St D C D :=
  emit (EvDuckDB_enter path) ;;
  db <- engine_call (DuckDB_ctor path) ;;
  emit (EvDuckDB_done db) ;;
  ret db.

(** [~DuckDB()] *)
Definition delete_DuckDB (db : D) (s : state St D C) : state St D C :=
  set_store (DuckDB_dtor db (store (add_log (EvDuckDB_dtor db) s)))
            (add_log (EvDuckDB_dtor db) s).

(** [Connection con(db);] *)
Definition new_Connection (db : D) : M St D C C :=
  emit (EvConnection_enter db) ;;
  con <- engine_call (Connection_ctor db) ;;
  emit (EvConnection_done con) ;;
  ret con.

(** [~Connection()] *)
Definition delete_Connection (con : C) (s : state St D C) : state St D C :=
  set_store (Connection_dtor con (store (add_log (EvConnection_dtor con) s)))
            (add_log (EvConnection_dtor con) s).

(** Line 8: the file name is a literal. *)
Definition main_db_path : string := "my_duck_database.db".

(** Lines 7 to 22: the [try] block.  Lines 11 to 21 are comments. *)
Definition main_try_block : M St D C completion :=
  scoped (new_DuckDB main_db_path) delete_DuckDB (fun db =>
  scoped (new_Connection db) delete_Connection (fun con =>
  ret Fallthrough)).

(** Line 23: [catch (std::exception &ex)] matches objects of classes derived
    from [std::exception], and nothing else. *)
Definition catch_std_exception (t : thrown) : option std_exception :=
  match t with
  | Std ex => Some ex
  | NonStd _ => None
  end.

(** Lines 24 and 25. *)
Definition main_handler (ex : std_exception) : M St D C completion :=
  cerr_insert "Exception: " ;;
  cerr_insert (what ex) ;;
  cerr_insert endl ;;
  ret (Return 1).

(** Lines 6 to 29. *)
Definition main : M St D C completion :=
  seq (try_catch main_try_block catch_std_exception main_handler)
      (ret (Return 0)).

(** A process: the streams start empty, [main] is declared without
    parameters and so never sees [argv]; an exception that leaves [main]
    ends in [std::terminate]. *)
Definition start (st : St) : state St D C :=
  {| store := st; log := []; cerr := ""; cout := "" |}.

Definition run_process (argv : list string) (st : St) : outcome * state St D C :=
  match main no_handler (start st) with
  | (Normal (Return n), s) => (Exit n, s)
  | (Normal Fallthrough, s) => (Exit 0, s)
  | (Throw t, s) => (Terminate t, s)
  end.

(** Two processes one after the other: the second starts on what the first
    left in the engine's store. *)
Definition run_twice (argv1 argv2 : list string) (st : St)
    : (outcome * state St D C) * (outcome * state St D C) :=
  let r1 := run_process argv1 st in
  (r1, run_process argv2 (store (snd r1))).

(** ** Reading a run *)

(** [t] is thrown by one of the two constructor calls of the [try] block
    when the process starts on [st]. *)
Definition thrown_while_opening (st : St) (t : thrown) : Prop :=
  (exists st1, DuckDB_ctor main_db_path st = (inl t, st1)) \/
  (exists db st1 st2,
      DuckDB_ctor main_db_path st = (inr db, st1) /\
      Connection_ctor db st1 = (inl t, st2)).

Definition is_connection_event (e : event D C) : bool :=
  match e with
  | EvConnection_enter _ | EvConnection_done _ | EvConnection_dtor _
  | EvQuery _ _ => true
  | _ => false
  end.

Definition is_query_event (e : event D C) : bool :=
  match e with
  | EvQuery _ _ => true
  | _ => false
  end.

Definition is_DuckDB_dtor (e : event D C) : bool :=
  match e with
  | EvDuckDB_dtor _ => true
  | _ => false
  end.

Definition is_caught (e : event D C) : bool :=
  match e with
  | EvCaught _ => true
  | _ => false
  end.

Definition is_ctor_enter (e : event D C) : bool :=
  match e with
  | EvDuckDB_enter _ | EvConnection_enter _ => true
  | _ => false
  end.

(** The one order in which the program calls the engine. *)
Definition linear_plan (db : D) (con : C) : list (event D C) :=
  [ EvDuckDB_enter main_db_path; EvDuckDB_done db;
    EvConnection_enter db; EvConnection_done con;
    EvConnection_dtor con; EvDuckDB_dtor db ].



(** The lifetime of every connection lies inside the lifetime of a database
    object: at the point where its constructor completes a [DuckDB] has been
    constructed and not destroyed, and the connection is destroyed later in
    the run, before any [DuckDB] is. *)
Definition connection_nested (l : list (event D C)) : Prop :=
  forall l1 l2 con,
    l = l1 ++ EvConnection_done con :: l2 ->
    (exists db, In (EvDuckDB_done db) l1) /\
    List.forallb (fun e => negb (is_DuckDB_dtor e)) l1 = true /\
    exists l3 l4,
      l2 = l3 ++ EvConnection_dtor con :: l4 /\
      List.forallb (fun e => negb (is_DuckDB_dtor e)) l3 = true.

(** Nothing happens on a connection once a database object was destroyed. *)
Definition no_connection_after_release (l : list (event D C)) : Prop :=
  forall l1 l2 db,
    l = l1 ++ EvDuckDB_dtor db :: l2 ->
    List.forallb (fun e => negb (is_connection_event e)) l2 = true.

(** The runs [main] has.  One constructor per case of what the two engine
    constructors do and of what the handler matches. *)
Inductive run_shape (st : St) : outcome -> state St D C -> Prop :=
  | RunOpenCaught ex st1 :
      DuckDB_ctor main_db_path st = (inl (Std ex), st1) ->
      run_shape st (Exit 1)
        {| store := st1;
           log := [EvDuckDB_enter main_db_path; EvCaught (Std ex)];
           cerr := "Exception: " +:+ what ex +:+ endl;
           cout := "" |}
  | RunOpenEscapes repr st1 :
      DuckDB_ctor main_db_path st = (inl (NonStd repr), st1) ->
      run_shape st (Terminate (NonStd repr))
        {| store := st1;
           log := [EvDuckDB_enter main_db_path];
           cerr := "";
           cout := "" |}
  | RunConnectCaught db ex st1 st2 :
      DuckDB_ctor main_db_path st = (inr db, st1) ->
      Connection_ctor db st1 = (inl (Std ex), st2) ->
      run_shape st (Exit 1)
        {| store := DuckDB_dtor db st2;
           log := [EvDuckDB_enter main_db_path; EvDuckDB_done db;
                   EvConnection_enter db; EvDuckDB_dtor db; EvCaught (Std ex)];
           cerr := "Exception: " +:+ what ex +:+ endl;
           cout := "" |}
  | RunConnectEscapes db repr st1 st2 :
      DuckDB_ctor main_db_path st = (inr db, st1) ->
      Connection_ctor db st1 = (inl (NonStd repr), st2) ->
      run_shape st (Terminate (NonStd repr))
        {| store := if unwinds_before_terminate then DuckDB_dtor db st2 else st2;
           log := [EvDuckDB_enter main_db_path; EvDuckDB_done db;
                   EvConnection_enter db] ++
                  (if unwinds_before_terminate then [EvDuckDB_dtor db] else []);
           cerr := "";
           cout := "" |}
  | RunCompletes db con st1 st2 :
      DuckDB_ctor main_db_path st = (inr db, st1) ->
      Connection_ctor db st1 = (inr con, st2) ->
      run_shape st (Exit 0)
        {| store := DuckDB_dtor db (Connection_dtor con st2);
           log := linear_plan db con;
           cerr := "";
           cout := "" |}.

End Connect.

(** ** An engine, as the specification describes it *)

Module SpecEngine.

(** Modelled from the spec: duckdb.hpp is missing, a database file is absent
    (no entry), cleanly closed, held open, or corrupted. *)
Inductive file_status : Type :=
  | Clean
  | Locked
  | Corrupt.

(** Modelled from the spec: duckdb.hpp is missing, this is what the engine
    keeps between calls: the database files by path, the paths at which
    nothing can be written, the open sessions and their limit. *)
Record store : Type := Store {
  files : gmap string file_status;
  unwritable : gset string;
  sessions : nat;
  session_limit : nat
}.

(** Modelled from the spec: class [DuckDB] of the missing duckdb.hpp, a
    database handle has one attribute, the file path. *)
Record db_handle : Type := DbHandle {
  db_path : string
}.

(** Modelled from the spec: class [Connection] of the missing duckdb.hpp, a
    connection handle refers to the database handle that owns it. *)
Record con_handle : Type := ConHandle {
  con_db : db_handle
}.

Definition set_files (fs : gmap string file_status) (st : store) : store :=
  {| files := fs; unwritable := unwritable st;
     sessions := sessions st; session_limit := session_limit st |}.

Definition set_sessions (n : nat) (st : store) : store :=
  {| files := files st; unwritable := unwritable st;
     sessions := n; session_limit := session_limit st |}.

Definition io_error (msg : string) : thrown :=
  Std {| kind := OpenIOError; what := "IO Error: " +:+ msg |}.

Definition connection_error (msg : string) : thrown :=
  Std {| kind := ConnectionError; what := "Connection Error: " +:+ msg |}.

(** Modelled from the spec: the constructor of [DuckDB] in the missing
    duckdb.hpp.  Opening fails with an open/IO error when the path is invalid
    (empty), unwritable, or the file is locked or corrupted; it creates the
    file when it is absent; the file is held while the handle lives. *)
Definition open_database (path : string) (st : store)
    : (thrown + db_handle) * store :=
  if decide (path = "") then (inl (io_error "invalid path"), st)
  else if decide (path ∈ unwritable st)
  then (inl (io_error "cannot open file for writing"), st)
  else
    match files st !! path with
    | Some Locked => (inl (io_error "file is locked"), st)
    | Some Corrupt => (inl (io_error "file is corrupted"), st)
    | Some Clean | None =>
        (inr {| db_path := path |}, set_files (<[path := Locked]> (files st)) st)
    end.

(** Modelled from the spec: the handle is valid and live when its file is
    held open. *)
Definition live (db : db_handle) (st : store) : Prop :=
  files st !! db_path db = Some Locked.

(** Modelled from the spec: the constructor of [Connection] in the missing
    duckdb.hpp.  It fails with a connection error when the database handle
    is not valid and live, or the session limit is reached. *)
Definition open_connection (db : db_handle) (st : store)
    : (thrown + con_handle) * store :=
  match files st !! db_path db with
  | Some Locked =>
      if decide ((sessions st < session_limit st)%nat)
      then (inr {| con_db := db |}, set_sessions (S (sessions st)) st)
      else (inl (connection_error "resource limit exceeded"), st)
  | _ => (inl (connection_error "invalid database handle"), st)
  end.

(** Modelled from the spec: the destructor of [Connection] in the missing
    duckdb.hpp, the session ends. *)
Definition close_connection (con : con_handle) (st : store) : store :=
  set_sessions (Nat.pred (sessions st)) st.

(** Modelled from the spec: the destructor of [DuckDB] in the missing
    duckdb.hpp, the file is flushed and closed. *)
Definition close_database (db : db_handle) (st : store) : store :=
  set_files (<[db_path db := Clean]> (files st)) st.

(** Modelled from the spec: the engine of the missing duckdb.hpp, put
    together from the four operations above. *)
#[global] Instance engine : Engine store db_handle con_handle := {|
  DuckDB_ctor := open_database;
  Connection_ctor := open_connection;
  Connection_dtor := close_connection;
  DuckDB_dtor := close_database
|}.

(** Modelled from the spec: a path is fresh and creatable when it is valid,
    nothing forbids writing there, and no file exists yet. *)
Definition fresh_creatable (path : string) (st : store) : Prop :=
  path ≠ "" ∧ (path ∉ unwritable st) ∧ files st !! path = None.

(** Modelled from the spec: a path that can be opened is valid and
    writable, and its file is absent or was closed cleanly. *)
Definition openable (path : string) (st : store) : Prop :=
  path ≠ "" ∧ (path ∉ unwritable st) ∧
  (files st !! path = None ∨ files st !! path = Some Clean).

(** Modelled from the spec: a session can still be opened. *)
Definition session_available (st : store) : Prop :=
  (sessions st < session_limit st)%nat.

(** An empty disk on which everything can be written. *)
Definition empty_disk : store :=
  {| files := ∅; unwritable := ∅; sessions := 0; session_limit := 8 |}.

(** The database file exists and another process holds it. *)
Definition locked_disk : store :=
  {| files := {[ "my_duck_database.db" := Locked ]}; unwritable := ∅;
     sessions := 0; session_limit := 8 |}.

(** Nothing can be written at the program's path; "test.db" is free. *)
Definition test_db_only_disk : store :=
  {| files := ∅; unwritable := {[ "my_duck_database.db" ]};
     sessions := 0; session_limit := 8 |}.

(** No session is left. *)
Definition exhausted_disk : store :=
  {| files := ∅; unwritable := ∅; sessions := 0; session_limit := 0 |}.

End SpecEngine.

(** ** Other engines and implementations, for concrete runs *)

(** An implementation that calls [std::terminate] without unwinding when no
    handler matches. *)
Definition no_unwinding : Implementation :=
  {| unwinds_before_terminate := false |}.

(** An implementation that unwinds first. *)
Definition unwinding : Implementation :=
  {| unwinds_before_terminate := true |}.

(** An engine whose [DuckDB] constructor throws an [int]. *)
Definition engine_throwing_int : Engine unit unit unit := {|
  DuckDB_ctor := fun _ st => (inl (NonStd "int 42"), st);
  Connection_ctor := fun _ st => (inr tt, st);
  Connection_dtor := fun _ st => st;
  DuckDB_dtor := fun _ st => st
|}.

(** An engine whose [Connection] constructor throws an [int], and that
    counts the [DuckDB] objects alive. *)
Definition engine_connection_throwing_int : Engine nat unit unit := {|
  DuckDB_ctor := fun _ n => (inr tt, S n);
  Connection_ctor := fun _ n => (inl (NonStd "int 42"), n);
  Connection_dtor := fun _ n => n;
  DuckDB_dtor := fun _ n => Nat.pred n
|}.

(** A process on the engine of the specification, started without
    arguments. *)
Definition spec_run (st : SpecEngine.store)
    : outcome * state SpecEngine.store SpecEngine.db_handle SpecEngine.con_handle :=
  @run_process _ _ _ SpecEngine.engine no_unwinding [] st.

(** A process on the engine whose [DuckDB] constructor throws an [int]. *)
Definition int_run : outcome * state unit unit unit :=
  @run_process _ _ _ engine_throwing_int no_unwinding [] tt.

(** * Properties *)

(** Unfolds a run of [main] down to the calls of the engine. *)
Ltac unfold_run :=
  cbv [run_process run_twice main seq try_catch main_try_block scoped
       new_DuckDB new_Connection delete_DuckDB delete_Connection
       main_handler cerr_insert bind ret emit engine_call
       start add_log add_cerr set_store store log cerr cout
       catch_std_exception matches no_handler orb linear_plan
       fst snd app].

Section Properties.
Context {St D C : Type} `{!Engine St D C} `{!Implementation}.

Implicit Types (st : St) (t : thrown) (argv : list string).

(** Every run of the process is one of the five runs of [run_shape]. *)
Lemma run_process_shape argv st :
  run_shape st (fst (run_process argv st)) (snd (run_process argv st)).
Proof.
  unfold_run.
  destruct (DuckDB_ctor main_db_path st) as [[[ex|repr]|db] st1] eqn:Hdb.
  - eapply RunOpenCaught; eassumption.
  - eapply RunOpenEscapes; eassumption.
  - destruct (Connection_ctor db st1) as [[[ex|repr]|con] st2] eqn:Hcon.
    + eapply RunConnectCaught; eassumption.
    + pose proof (RunConnectEscapes st db repr st1 st2 Hdb Hcon) as R.
      simpl in R. destruct unwinds_before_terminate; exact R.
    + eapply RunCompletes; eassumption.
Qed.

(** The same, for a run named by its two components. *)
Lemma run_process_cases argv st o s :
  run_process argv st = (o, s) -> run_shape st o s.
Proof.
  intros E. pose proof (run_process_shape argv st) as R.
  rewrite E in R. exact R.
Qed.

(** The diagnostic line starts with the prefix, whatever the message. *)
Lemma diagnostic_prefix (msg : string) :
  String.prefix "Exception: " ("Exception: " +:+ msg +:+ endl) = true.
Proof. simpl. destruct (msg +:+ endl); reflexivity. Qed.

(** C1: in every run in which an error is caught at the top-level boundary,
    the caught value is an object [ex] derived from [std::exception], the
    process ends with exit code 1, the error stream holds exactly the line
    "Exception: " followed by [ex.what()] and a newline (so it starts with the
    prefix), nothing is written to the output stream, and the entry into the
    handler is the only one and the last event of the run: the handler calls
    the engine no more, there is no recovery. *)
Theorem caught_error_prints_and_exits_1 argv st t :
  In (EvCaught t) (log (snd (run_process argv st))) ->
  exists ex before,
    t = Std ex /\
    fst (run_process argv st) = Exit 1 /\
    cerr (snd (run_process argv st)) = "Exception: " +:+ what ex +:+ endl /\
    String.prefix "Exception: " (cerr (snd (run_process argv st))) = true /\
    cout (snd (run_process argv st)) = "" /\
    log (snd (run_process argv st)) = before ++ [EvCaught t] /\
    List.forallb (fun e => negb (is_caught e)) before = true.
Proof.
  destruct (run_process argv st) as [o s] eqn:E.
  apply run_process_cases in E. simpl.
  destruct E as [ex st1 Hdb|repr st1 Hdb|db ex st1 st2 Hdb Hcon
                |db repr st1 st2 Hdb Hcon|db con st1 st2 Hdb Hcon];
    cbn [log cerr cout]; intros Hin.
  - exists ex, [EvDuckDB_enter main_db_path].
    destruct Hin as [Hin|[Hin|[]]]; [discriminate Hin|].
    injection Hin as <-. rewrite diagnostic_prefix. auto 10.
  - destruct Hin as [Hin|[]]; discriminate Hin.
  - exists ex, [EvDuckDB_enter main_db_path; EvDuckDB_done db;
                EvConnection_enter db; EvDuckDB_dtor db].
    destruct Hin as [Hin|[Hin|[Hin|[Hin|[Hin|[]]]]]]; try discriminate Hin.
    injection Hin as <-. rewrite diagnostic_prefix. auto 10.
  - destruct unwinds_before_terminate; simpl in Hin;
      repeat (destruct Hin as [Hin|Hin]; [discriminate Hin|]); destruct Hin.
  - simpl in Hin.
    repeat (destruct Hin as [Hin|Hin]; [discriminate Hin|]); destruct Hin.
Qed.
(** A run in which the [DuckDB] constructor throws [t]. *)
Lemma run_when_open_throws argv st t st1 :
  DuckDB_ctor main_db_path st = (inl t, st1) ->
  run_process argv st =
    match t with
    | Std ex =>
        (Exit 1,
         {| store := st1;
            log := [EvDuckDB_enter main_db_path; EvCaught t];
            cerr := "Exception: " +:+ what ex +:+ endl;
            cout := "" |})
    | NonStd _ =>
        (Terminate t,
         {| store := st1; log := [EvDuckDB_enter main_db_path];
            cerr := ""; cout := "" |})
    end.
Proof.
  intros Hdb. unfold_run. rewrite Hdb. destruct t; reflexivity.
Qed.

(** A run in which the [Connection] constructor throws [t]. *)
Lemma run_when_connect_throws argv st db t st1 st2 :
  DuckDB_ctor main_db_path st = (inr db, st1) ->
  Connection_ctor db st1 = (inl t, st2) ->
  run_process argv st =
    match t with
    | Std ex =>
        (Exit 1,
         {| store := DuckDB_dtor db st2;
            log := [EvDuckDB_enter main_db_path; EvDuckDB_done db;
                    EvConnection_enter db; EvDuckDB_dtor db; EvCaught t];
            cerr := "Exception: " +:+ what ex +:+ endl;
            cout := "" |})
    | NonStd _ =>
        (Terminate t,
         if unwinds_before_terminate
         then {| store := DuckDB_dtor db st2;
                 log := [EvDuckDB_enter main_db_path; EvDuckDB_done db;
                         EvConnection_enter db; EvDuckDB_dtor db];
                 cerr := ""; cout := "" |}
         else {| store := st2;
                 log := [EvDuckDB_enter main_db_path; EvDuckDB_done db;
                         EvConnection_enter db];
                 cerr := ""; cout := "" |})
    end.
Proof.
  intros Hdb Hcon. unfold_run. rewrite Hdb, Hcon. destruct t; reflexivity.
Qed.

(** A run in which both constructors complete. *)
Lemma run_when_both_open argv st db con st1 st2 :
  DuckDB_ctor main_db_path st = (inr db, st1) ->
  Connection_ctor db st1 = (inr con, st2) ->
  run_process argv st =
    (Exit 0,
     {| store := DuckDB_dtor db (Connection_dtor con st2);
        log := linear_plan db con; cerr := ""; cout := "" |}).
Proof.
  intros Hdb Hcon. unfold_run. rewrite Hdb, Hcon. reflexivity.
Qed.

(** C2, amended: every error derived from [std::exception] that one of the
    two constructors throws is caught exactly once, at the one handler of
    [main]: the process ends with exit code 1 (not zero, and not by
    [std::terminate]), the error stream holds the diagnostic line, the run has
    one handler entry, for that very error, and it is the last event: nothing
    is recovered, no constructor is called again. *)
Theorem std_exception_is_caught_once argv st ex :
  thrown_while_opening st (Std ex) ->
  fst (run_process argv st) = Exit 1 /\
  cerr (snd (run_process argv st)) = "Exception: " +:+ what ex +:+ endl /\
  List.filter is_caught (log (snd (run_process argv st))) = [EvCaught (Std ex)] /\
  last (log (snd (run_process argv st))) = Some (EvCaught (Std ex)) /\
  (length (List.filter is_ctor_enter (log (snd (run_process argv st)))) <= 2)%nat.
Proof.
  intros [[st1 Hdb]|(db & st1 & st2 & Hdb & Hcon)].
  - rewrite (run_when_open_throws argv st _ st1 Hdb). cbn. auto with lia.
  - rewrite (run_when_connect_throws argv st db _ st1 st2 Hdb Hcon).
    cbn. auto with lia.
Qed.

(** C3: when the [DuckDB] object and the [Connection] object are both
    constructed, the process ends with exit code 0, both streams stay empty,
    and the engine was called for exactly the two constructions and the two
    destructions: no query ran. *)
Theorem both_opened_exits_0_silently argv st db con st1 st2 :
  DuckDB_ctor main_db_path st = (inr db, st1) ->
  Connection_ctor db st1 = (inr con, st2) ->
  fst (run_process argv st) = Exit 0 /\
  cerr (snd (run_process argv st)) = "" /\
  cout (snd (run_process argv st)) = "" /\
  log (snd (run_process argv st)) = linear_plan db con /\
  List.forallb (fun e => negb (is_query_event e))
               (log (snd (run_process argv st))) = true.
Proof.
  intros Hdb Hcon.
  rewrite (run_when_both_open argv st db con st1 st2 Hdb Hcon).
  cbn. auto.
Qed.

(** C9: the handler of [main] matches objects derived from [std::exception]
    only.  A value of any other type thrown by one of the two constructors is
    not matched: it leaves [main], the process ends in [std::terminate] with
    that value and not with exit code 1, no handler is entered and nothing is
    written to the error stream. *)
Theorem non_std_value_escapes argv st t :
  thrown_while_opening st t ->
  catch_std_exception t = None ->
  fst (run_process argv st) = Terminate t /\
  fst (run_process argv st) <> Exit 1 /\
  cerr (snd (run_process argv st)) = "" /\
  List.filter is_caught (log (snd (run_process argv st))) = [].
Proof.
  intros Hthrown Hsel.
  destruct t as [ex|repr]; [discriminate Hsel|].
  destruct Hthrown as [[st1 Hdb]|(db & st1 & st2 & Hdb & Hcon)].
  - rewrite (run_when_open_throws argv st _ st1 Hdb). cbn.
    repeat split; congruence.
  - rewrite (run_when_connect_throws argv st db _ st1 st2 Hdb Hcon).
    destruct unwinds_before_terminate; cbn; repeat split; congruence.
Qed.
(** Locates an event in a log that is known event by event. *)
Ltac find_event :=
  repeat match goal with
         | H : _ = ?l1 ++ _ :: _ |- _ =>
             is_var l1; destruct l1 as [|? l1]; simplify_eq/=
         end.

(** Replaces a run by its five cases. *)
Ltac run_cases argv st :=
  let o := fresh "o" in
  let s := fresh "s" in
  let E := fresh "E" in
  destruct (run_process argv st) as [o s] eqn:E;
  apply run_process_cases in E;
  destruct E as [ex st1 Hdb|repr st1 Hdb|db ex st1 st2 Hdb Hcon
                |db repr st1 st2 Hdb Hcon|db con st1 st2 Hdb Hcon];
  cbn [fst snd log cerr cout store]; unfold linear_plan;
  try match goal with
      | |- context [unwinds_before_terminate] =>
          destruct unwinds_before_terminate; cbn [app]
      end.

(** C4: in every run the lifetime of the connection lies strictly inside the
    lifetime of the database object.  Where a [Connection] constructor
    completes, a [DuckDB] object has been constructed before and none has
    been destroyed; that connection is destroyed later in the same run, and
    no [DuckDB] object is destroyed in between.  After the destruction of a
    [DuckDB] object the run has no event on a connection. *)
Theorem connection_lifetime_nested argv st :
  connection_nested (log (snd (run_process argv st))) /\
  no_connection_after_release (log (snd (run_process argv st))).
Proof.
  unfold connection_nested, no_connection_after_release.
  run_cases argv st; (split; [intros l1 l2 c Hl|intros l1 l2 d Hl]);
    find_event; try reflexivity.
  split; [exists db; simpl; auto|].
  split; [reflexivity|].
  exists [], [EvDuckDB_dtor db]. split; reflexivity.
Qed.

(** C6: when the [DuckDB] constructor throws [t], the [try] block ends by
    throwing that same [t], whatever handlers enclose it, after one engine
    call (the failed constructor): nothing handles it on the way.  The run has
    no event on a connection, so the [Connection] constructor is never
    reached.  At the boundary [t] is matched by the handler when it is derived
    from [std::exception] (exit code 1, the handler is entered with [t], the
    diagnostic carries its message), and leaves [main] otherwise. *)
Theorem open_failure_reaches_boundary argv st t st1 (hs : handlers) :
  DuckDB_ctor main_db_path st = (inl t, st1) ->
  main_try_block hs (start st) =
    (Throw t, {| store := st1; log := [EvDuckDB_enter main_db_path];
                 cerr := ""; cout := "" |}) /\
  List.forallb (fun e => negb (is_connection_event e))
               (log (snd (run_process argv st))) = true /\
  fst (run_process argv st) =
    match catch_std_exception t with
    | Some _ => Exit 1
    | None => Terminate t
    end /\
  (forall ex, t = Std ex ->
     last (log (snd (run_process argv st))) = Some (EvCaught t) /\
     cerr (snd (run_process argv st)) = "Exception: " +:+ what ex +:+ endl).
Proof.
  intros Hdb. split.
  - unfold_run. rewrite Hdb. reflexivity.
  - rewrite (run_when_open_throws argv st t st1 Hdb).
    destruct t as [ex|repr]; cbn; repeat split; congruence.
Qed.


(** C10: wherever a run enters the [Connection] constructor, its argument
    is the [DuckDB] object whose construction is the event just before, the
    first object of the run, returned by the [DuckDB] constructor on the
    program's path without a throw; nothing was destroyed before that point,
    so the object is alive when the connection is opened on it. *)
Theorem connection_gets_live_database argv st l1 l2 d :
  log (snd (run_process argv st)) = l1 ++ EvConnection_enter d :: l2 ->
  l1 = [EvDuckDB_enter main_db_path; EvDuckDB_done d] /\
  List.forallb (fun e => negb (is_DuckDB_dtor e)) l1 = true /\
  exists st1, DuckDB_ctor main_db_path st = (inr d, st1).
Proof.
  run_cases argv st; intros Hl; find_event;
    (split; [reflexivity|split; [reflexivity|eauto]]).
Qed.
(** ** What a run tells about the two constructors *)

(** X1: the way the process ends tells what the two constructors did.  The
    exit code is 0 exactly when both constructors returned, 1 exactly when
    one of them threw an object derived from [std::exception], and the
    process ends in [std::terminate] with [t] exactly when one of them threw
    [t] and [t] is of another type.  No other exit code occurs. *)
Theorem outcome_tells_constructors argv st :
  (fst (run_process argv st) = Exit 0 <->
     exists db st1 con st2,
       DuckDB_ctor main_db_path st = (inr db, st1) /\
       Connection_ctor db st1 = (inr con, st2)) /\
  (fst (run_process argv st) = Exit 1 <->
     exists ex, thrown_while_opening st (Std ex)) /\
  (forall t, fst (run_process argv st) = Terminate t <->
     thrown_while_opening st t /\ catch_std_exception t = None) /\
  (forall n, fst (run_process argv st) = Exit n -> n = 0 \/ n = 1).
Proof.
  unfold thrown_while_opening.
  destruct (DuckDB_ctor main_db_path st) as [[[ex|repr]|db] st1] eqn:Hdb;
    [rewrite (run_when_open_throws argv st _ st1 Hdb)
    |rewrite (run_when_open_throws argv st _ st1 Hdb)
    |destruct (Connection_ctor db st1) as [[[ex|repr]|con] st2] eqn:Hcon;
     [rewrite (run_when_connect_throws argv st db _ st1 st2 Hdb Hcon)
     |rewrite (run_when_connect_throws argv st db _ st1 st2 Hdb Hcon)
     |rewrite (run_when_both_open argv st db con st1 st2 Hdb Hcon)]];
    cbn [fst]; repeat split; intros;
    repeat match goal with
           | H : _ /\ _ |- _ => destruct H
           | H : _ \/ _ |- _ => destruct H
           | H : exists _, _ |- _ => destruct H
           end;
    simplify_eq/=;
    try match goal with
        | H1 : ?call = _, H2 : ?call = _ |- _ =>
            rewrite H1 in H2; simplify_eq/=
        end;
    try congruence; eauto 10.
Qed.

(** X2: a run that ends with an exit code has destroyed every object it
    constructed: each [DuckDB] and each [Connection] whose constructor
    completed has its destructor call in the run.  When the handler is
    entered, the [DuckDB] objects constructed so far are already destroyed:
    unwinding comes before the diagnostic. *)
Theorem exit_destroys_every_object argv st n :
  fst (run_process argv st) = Exit n ->
  (forall db, In (EvDuckDB_done db) (log (snd (run_process argv st))) ->
     In (EvDuckDB_dtor db) (log (snd (run_process argv st)))) /\
  (forall con, In (EvConnection_done con) (log (snd (run_process argv st))) ->
     In (EvConnection_dtor con) (log (snd (run_process argv st)))) /\
  (forall l1 l2 t db,
     log (snd (run_process argv st)) = l1 ++ EvCaught t :: l2 ->
     In (EvDuckDB_done db) l1 -> In (EvDuckDB_dtor db) l1).
Proof.
  run_cases argv st; intros Hexit; try discriminate Hexit;
    (split; [|split]); try (intros l1 l2 t d Hl Hin; find_event);
    try (intros x Hin); simpl in *; intuition congruence.
Qed.

(** X3: when the [Connection] constructor throws a value that the handler
    does not match, the [DuckDB] object already constructed is destroyed only
    if the implementation unwinds before [std::terminate]; otherwise the
    process ends with the object never destroyed, and the engine is left as
    the failed constructor left it. *)
Theorem database_destroyed_only_if_unwound argv st db repr st1 st2 :
  DuckDB_ctor main_db_path st = (inr db, st1) ->
  Connection_ctor db st1 = (inl (NonStd repr), st2) ->
  fst (run_process argv st) = Terminate (NonStd repr) /\
  List.existsb is_DuckDB_dtor (log (snd (run_process argv st)))
    = unwinds_before_terminate /\
  store (snd (run_process argv st))
    = (if unwinds_before_terminate then DuckDB_dtor db st2 else st2).
Proof.
  intros Hdb Hcon.
  rewrite (run_when_connect_throws argv st db _ st1 st2 Hdb Hcon).
  destruct unwinds_before_terminate; repeat split; reflexivity.
Qed.

(** X4: what [main] itself inserts into the two streams ([cout] and [cerr]
    of the state hold the insertions of the program, not what the runtime
    prints when [std::terminate] is called).  In no run does [main] insert
    anything into [std::cout].  What it inserts into [std::cerr] is empty
    exactly in the runs that do not end with exit code 1, so in particular in
    the runs that end in [std::terminate]; when it is not empty it is the
    diagnostic line of an error that one of the two constructors threw and
    the handler matched. *)
Theorem main_stream_insertions argv st :
  cout (snd (run_process argv st)) = "" /\
  (cerr (snd (run_process argv st)) = "" <->
     fst (run_process argv st) <> Exit 1) /\
  (cerr (snd (run_process argv st)) <> "" ->
     exists ex,
       thrown_while_opening st (Std ex) /\
       cerr (snd (run_process argv st)) = "Exception: " +:+ what ex +:+ endl).
Proof.
  unfold thrown_while_opening.
  run_cases argv st; (split; [reflexivity|split; [split|]]);
    try (intros; discriminate); try congruence; intros _; eauto 10.
Qed.

(** X5: the run enters the [Connection] constructor on [d] exactly when the
    [DuckDB] constructor returned [d]: a database that opened is always
    connected to, and nothing else is. *)
Theorem connection_attempted_iff_database_opened argv st d :
  In (EvConnection_enter d) (log (snd (run_process argv st))) <->
  exists st1, DuckDB_ctor main_db_path st = (inr d, st1).
Proof.
  run_cases argv st; simpl; split;
    try (intros [? Hopen]; rewrite Hdb in Hopen; simplify_eq/=; auto);
    intros Hin; repeat (destruct Hin as [Hin|Hin]; simplify_eq/=);
    try contradiction; eauto.
Qed.

End Properties.

(** ** Runs on the engine of the specification *)

Section SpecProperties.
Context `{!Implementation}.

Implicit Types (st : SpecEngine.store) (argv : list string).

(** On a path that can be opened the constructor returns a handle on that
    path and holds the file. *)
Lemma open_database_openable path st :
  SpecEngine.openable path st ->
  SpecEngine.open_database path st =
    (inr {| SpecEngine.db_path := path |},
     SpecEngine.set_files (<[path := SpecEngine.Locked]> (SpecEngine.files st)) st).
Proof.
  intros (Hne & Hw & Hfile). unfold SpecEngine.open_database.
  rewrite decide_False by exact Hne.
  rewrite decide_False by exact Hw.
  destruct Hfile as [-> | ->]; reflexivity.
Qed.

(** A handle that the constructor returned is live in the store it left. *)
Lemma open_database_live path st db st1 :
  SpecEngine.open_database path st = (inr db, st1) ->
  SpecEngine.live db st1.
Proof.
  unfold SpecEngine.open_database, SpecEngine.live. intros Hopen.
  repeat case_decide; try discriminate Hopen.
  destruct (SpecEngine.files st !! path) as [[]|];
    simplify_eq/=; apply lookup_insert_eq.
Qed.

(** The whole run on a path that can be opened, with a session left: exit
    code 0, and all that remains in the store is the file, closed. *)
Lemma spec_run_openable argv st :
  SpecEngine.openable main_db_path st ->
  SpecEngine.session_available st ->
  run_process argv st =
    (Exit 0,
     {| store :=
          SpecEngine.set_files
            (<[main_db_path := SpecEngine.Clean]> (SpecEngine.files st)) st;
        log := linear_plan {| SpecEngine.db_path := main_db_path |}
                 {| SpecEngine.con_db := {| SpecEngine.db_path := main_db_path |} |};
        cerr := ""; cout := "" |}).
Proof.
  intros Hopen Hsession.
  pose proof (open_database_openable _ _ Hopen) as Hdb.
  set (db := {| SpecEngine.db_path := main_db_path |}) in *.
  set (st1 := SpecEngine.set_files _ st) in Hdb.
  assert (Hcon : SpecEngine.open_connection db st1 =
                 (inr {| SpecEngine.con_db := db |},
                  SpecEngine.set_sessions (S (SpecEngine.sessions st1)) st1)).
  { unfold SpecEngine.open_connection. subst st1 db.
    cbn [SpecEngine.files SpecEngine.set_files SpecEngine.db_path
         SpecEngine.sessions SpecEngine.session_limit].
    rewrite lookup_insert_eq.
    rewrite decide_True by exact Hsession. reflexivity. }
  rewrite (@run_when_both_open _ _ _ SpecEngine.engine _ argv st _ _ _ _ Hdb Hcon).
  do 2 f_equal. subst st1 db. destruct st as [fs uw n lim].
  cbn. unfold SpecEngine.close_database, SpecEngine.close_connection,
    SpecEngine.set_files, SpecEngine.set_sessions. cbn.
  rewrite insert_insert_eq. reflexivity.
Qed.
(** After a run that completed, the path can be opened again. *)
Lemma openable_after_run st :
  SpecEngine.openable main_db_path st ->
  SpecEngine.openable main_db_path
    (SpecEngine.set_files
       (<[main_db_path := SpecEngine.Clean]> (SpecEngine.files st)) st).
Proof.
  intros (Hne & Hw & _). repeat split; [exact Hne|exact Hw|].
  right. cbn. apply lookup_insert_eq.
Qed.

(** C5, amended: the path of the database is the literal
    "my_duck_database.db", whatever the arguments of the process, which do
    not change the run; the first thing every such run does is call the
    [DuckDB] constructor on that literal.  On the engine of the
    specification, when "my_duck_database.db" is fresh and creatable and a
    session is available, the process ends with exit code 0 and writes
    nothing to the error stream. *)
Theorem fixed_path_my_duck_database argv argv' st :
  SpecEngine.fresh_creatable main_db_path st ->
  SpecEngine.session_available st ->
  main_db_path = "my_duck_database.db" /\
  run_process argv st = run_process argv' st /\
  head (log (snd (run_process argv st))) =
    Some (EvDuckDB_enter "my_duck_database.db") /\
  fst (run_process argv st) = Exit 0 /\
  cerr (snd (run_process argv st)) = "".
Proof.
  intros (Hne & Hw & Hfresh) Hsession.
  assert (Hopen : SpecEngine.openable main_db_path st)
    by (repeat split; auto).
  split; [reflexivity|].
  split; [reflexivity|].
  rewrite (spec_run_openable argv st Hopen Hsession).
  repeat split; reflexivity.
Qed.

(** C8: on the engine of the specification, two processes run one after the
    other on a store in which the program's path can be opened and a session
    is available both end with exit code 0.  Each leaves the database file
    cleanly closed, the second leaves the store exactly as the first did, and
    no other file is touched. *)
Theorem reopen_succeeds argv1 argv2 st :
  SpecEngine.openable main_db_path st ->
  SpecEngine.session_available st ->
  fst (fst (run_twice argv1 argv2 st)) = Exit 0 /\
  fst (snd (run_twice argv1 argv2 st)) = Exit 0 /\
  SpecEngine.files (store (snd (fst (run_twice argv1 argv2 st)))) !! main_db_path
    = Some SpecEngine.Clean /\
  SpecEngine.files (store (snd (snd (run_twice argv1 argv2 st)))) !! main_db_path
    = Some SpecEngine.Clean /\
  store (snd (snd (run_twice argv1 argv2 st)))
    = store (snd (fst (run_twice argv1 argv2 st))) /\
  (forall p : string, p <> main_db_path ->
     SpecEngine.files (store (snd (snd (run_twice argv1 argv2 st)))) !! p
       = SpecEngine.files st !! p).
Proof.
  intros Hopen Hsession. unfold run_twice.
  rewrite (spec_run_openable argv1 st Hopen Hsession).
  cbn [fst snd store].
  rewrite (spec_run_openable argv2 _ (openable_after_run st Hopen) Hsession).
  cbn [fst snd store SpecEngine.files SpecEngine.set_files].
  rewrite insert_insert_eq.
  repeat split; try reflexivity; try apply lookup_insert_eq.
  intros p Hp. apply lookup_insert_ne. congruence.
Qed.
End SpecProperties.

(** ** Concrete runs *)

(** C1 at a run on a locked database file. *)
Lemma caught_error_prints_and_exits_1_witness :
  In (EvCaught (SpecEngine.io_error "file is locked"))
     (log (snd (spec_run SpecEngine.locked_disk))) /\
  exists ex before,
    SpecEngine.io_error "file is locked" = Std ex /\
    fst (spec_run SpecEngine.locked_disk) = Exit 1 /\
    cerr (snd (spec_run SpecEngine.locked_disk))
      = "Exception: " +:+ what ex +:+ endl /\
    String.prefix "Exception: " (cerr (snd (spec_run SpecEngine.locked_disk)))
      = true /\
    cout (snd (spec_run SpecEngine.locked_disk)) = "" /\
    log (snd (spec_run SpecEngine.locked_disk))
      = before ++ [EvCaught (SpecEngine.io_error "file is locked")] /\
    List.forallb (fun e => negb (is_caught e)) before = true.
Proof.
  assert (Hin : In (EvCaught (SpecEngine.io_error "file is locked"))
                   (log (snd (spec_run SpecEngine.locked_disk)))).
  { vm_compute. right. left. reflexivity. }
  split; [exact Hin|].
  exact (@caught_error_prints_and_exits_1 _ _ _ SpecEngine.engine no_unwinding
           [] SpecEngine.locked_disk _ Hin).
Defined.

(** C2 as stated fails: on an engine whose [DuckDB] constructor throws an
    [int], the value is thrown during database open, and the process ends in
    [std::terminate]: it has no exit code, no handler is entered and the error
    stream stays empty. *)
Lemma thrown_int_is_not_caught :
  @thrown_while_opening _ _ _ engine_throwing_int tt (NonStd "int 42") /\
  fst int_run = Terminate (NonStd "int 42") /\
  (forall n, fst int_run <> Exit n) /\
  cerr (snd int_run) = "" /\
  List.filter is_caught (log (snd int_run)) = [].
Proof.
  split.
  - left. exists tt. reflexivity.
  - vm_compute. repeat split; congruence.
Qed.

(** The amended C2 at a run in which no session is left: the [Connection]
    constructor throws a connection error. *)
Lemma std_exception_is_caught_once_witness :
  @thrown_while_opening _ _ _ SpecEngine.engine SpecEngine.exhausted_disk
    (Std {| kind := ConnectionError;
            what := "Connection Error: resource limit exceeded" |}) /\
  fst (spec_run SpecEngine.exhausted_disk) = Exit 1 /\
  cerr (snd (spec_run SpecEngine.exhausted_disk))
    = "Exception: " +:+ "Connection Error: resource limit exceeded" +:+ endl /\
  List.filter is_caught (log (snd (spec_run SpecEngine.exhausted_disk)))
    = [EvCaught (Std {| kind := ConnectionError;
                        what := "Connection Error: resource limit exceeded" |})] /\
  last (log (snd (spec_run SpecEngine.exhausted_disk)))
    = Some (EvCaught (Std {| kind := ConnectionError;
                             what := "Connection Error: resource limit exceeded" |})) /\
  (length (List.filter is_ctor_enter (log (snd (spec_run SpecEngine.exhausted_disk))))
     <= 2)%nat.
Proof.
  assert (Hthrown :
    @thrown_while_opening _ _ _ SpecEngine.engine SpecEngine.exhausted_disk
      (Std {| kind := ConnectionError;
              what := "Connection Error: resource limit exceeded" |})).
  { right. eexists _, _, _. split; vm_compute; reflexivity. }
  split; [exact Hthrown|].
  exact (@std_exception_is_caught_once _ _ _ SpecEngine.engine no_unwinding
           [] SpecEngine.exhausted_disk _ Hthrown).
Defined.

(** C3 at a run on an empty disk. *)
Lemma both_opened_exits_0_silently_witness :
  (exists db con st1 st2,
     SpecEngine.open_database main_db_path SpecEngine.empty_disk = (inr db, st1) /\
     SpecEngine.open_connection db st1 = (inr con, st2) /\
     log (snd (spec_run SpecEngine.empty_disk)) = linear_plan db con) /\
  fst (spec_run SpecEngine.empty_disk) = Exit 0 /\
  cerr (snd (spec_run SpecEngine.empty_disk)) = "" /\
  cout (snd (spec_run SpecEngine.empty_disk)) = "".
Proof.
  destruct (SpecEngine.open_database main_db_path SpecEngine.empty_disk)
    as [[t|db] st1] eqn:Hdb; [vm_compute in Hdb; discriminate Hdb|].
  destruct (SpecEngine.open_connection db st1) as [[t|con] st2] eqn:Hcon.
  { vm_compute in Hdb. injection Hdb as <- <-.
    vm_compute in Hcon. discriminate Hcon. }
  pose proof (@both_opened_exits_0_silently _ _ _ SpecEngine.engine no_unwinding
                [] SpecEngine.empty_disk db con st1 st2 Hdb Hcon)
    as (Hexit & Herr & Hout & Hlog & _).
  split; [exists db, con, st1, st2; auto|auto].
Defined.

(** C5 as stated fails: on a disk where "test.db" is fresh and creatable and
    nothing can be written at "my_duck_database.db", the process ends with
    exit code 1 and a diagnostic on the error stream.  The literal of the
    program is not "test.db". *)
Lemma test_db_is_not_the_path :
  SpecEngine.fresh_creatable "test.db" SpecEngine.test_db_only_disk /\
  main_db_path <> "test.db" /\
  fst (spec_run SpecEngine.test_db_only_disk) = Exit 1 /\
  cerr (snd (spec_run SpecEngine.test_db_only_disk))
    = "Exception: IO Error: cannot open file for writing" +:+ endl.
Proof.
  split; [|split; [discriminate|split; vm_compute; reflexivity]].
  repeat split.
  - discriminate.
  - intros Hin. cbn in Hin. apply elem_of_singleton in Hin. discriminate Hin.
Qed.

(** The amended C5 at a run on an empty disk. *)
Lemma fixed_path_my_duck_database_witness :
  SpecEngine.fresh_creatable main_db_path SpecEngine.empty_disk /\
  SpecEngine.session_available SpecEngine.empty_disk /\
  main_db_path = "my_duck_database.db" /\
  spec_run SpecEngine.empty_disk
    = @run_process _ _ _ SpecEngine.engine no_unwinding ["--path"; "test.db"]
        SpecEngine.empty_disk /\
  head (log (snd (spec_run SpecEngine.empty_disk)))
    = Some (EvDuckDB_enter "my_duck_database.db") /\
  fst (spec_run SpecEngine.empty_disk) = Exit 0 /\
  cerr (snd (spec_run SpecEngine.empty_disk)) = "".
Proof.
  assert (Hfresh : SpecEngine.fresh_creatable main_db_path SpecEngine.empty_disk).
  { repeat split; [discriminate|apply not_elem_of_empty]. }
  assert (Hsession : SpecEngine.session_available SpecEngine.empty_disk).
  { unfold SpecEngine.session_available. simpl. lia. }
  split; [exact Hfresh|]. split; [exact Hsession|].
  exact (@fixed_path_my_duck_database no_unwinding [] ["--path"; "test.db"]
           SpecEngine.empty_disk Hfresh Hsession).
Defined.

(** C6 at a run on a locked database file: the engine of the specification
    signals an open/IO error, and it is that error the handler receives. *)
Lemma open_failure_reaches_boundary_witness :
  SpecEngine.open_database main_db_path SpecEngine.locked_disk
    = (inl (SpecEngine.io_error "file is locked"), SpecEngine.locked_disk) /\
  @main_try_block _ _ _ SpecEngine.engine no_unwinding no_handler
      (start SpecEngine.locked_disk)
    = (Throw (SpecEngine.io_error "file is locked"),
       {| store := SpecEngine.locked_disk;
          log := [EvDuckDB_enter main_db_path]; cerr := ""; cout := "" |}) /\
  List.forallb (fun e => negb (is_connection_event e))
               (log (snd (spec_run SpecEngine.locked_disk))) = true /\
  fst (spec_run SpecEngine.locked_disk) = Exit 1 /\
  last (log (snd (spec_run SpecEngine.locked_disk)))
    = Some (EvCaught (Std {| kind := OpenIOError;
                             what := "IO Error: file is locked" |})).
Proof.
  assert (Hdb : SpecEngine.open_database main_db_path SpecEngine.locked_disk
                = (inl (SpecEngine.io_error "file is locked"),
                   SpecEngine.locked_disk)).
  { vm_compute. reflexivity. }
  pose proof (@open_failure_reaches_boundary _ _ _ SpecEngine.engine
                no_unwinding [] SpecEngine.locked_disk _ _ no_handler Hdb)
    as (Hblock & Hnocon & Hexit & Hcaught).
  destruct (Hcaught _ eq_refl) as [Hlast _].
  split; [exact Hdb|]. split; [exact Hblock|]. split; [exact Hnocon|].
  split; [exact Hexit|exact Hlast].
Defined.

(** C8 at two runs that start on an empty disk. *)
Lemma reopen_succeeds_witness :
  SpecEngine.openable main_db_path SpecEngine.empty_disk /\
  SpecEngine.session_available SpecEngine.empty_disk /\
  fst (fst (@run_twice _ _ _ SpecEngine.engine no_unwinding [] []
              SpecEngine.empty_disk)) = Exit 0 /\
  fst (snd (@run_twice _ _ _ SpecEngine.engine no_unwinding [] []
              SpecEngine.empty_disk)) = Exit 0.
Proof.
  assert (Hopen : SpecEngine.openable main_db_path SpecEngine.empty_disk).
  { repeat split; [discriminate|apply not_elem_of_empty|left; reflexivity]. }
  assert (Hsession : SpecEngine.session_available SpecEngine.empty_disk).
  { unfold SpecEngine.session_available. simpl. lia. }
  pose proof (@reopen_succeeds no_unwinding [] [] SpecEngine.empty_disk
                Hopen Hsession) as (Hfirst & Hsecond & _).
  split; [exact Hopen|]. split; [exact Hsession|].
  split; [exact Hfirst|exact Hsecond].
Defined.

(** C9 at a run in which the [Connection] constructor throws an [int], on
    an implementation that unwinds before [std::terminate]. *)
Lemma non_std_value_escapes_witness :
  @thrown_while_opening _ _ _ engine_connection_throwing_int 0%nat
    (NonStd "int 42") /\
  catch_std_exception (NonStd "int 42") = None /\
  fst (@run_process _ _ _ engine_connection_throwing_int unwinding [] 0%nat)
    = Terminate (NonStd "int 42") /\
  fst (@run_process _ _ _ engine_connection_throwing_int unwinding [] 0%nat)
    <> Exit 1 /\
  cerr (snd (@run_process _ _ _ engine_connection_throwing_int unwinding []
               0%nat)) = "" /\
  List.filter is_caught
    (log (snd (@run_process _ _ _ engine_connection_throwing_int unwinding []
                 0%nat))) = [].
Proof.
  assert (Hthrown : @thrown_while_opening _ _ _ engine_connection_throwing_int
                      0%nat (NonStd "int 42")).
  { right. exists tt, 1%nat, 1%nat. split; reflexivity. }
  split; [exact Hthrown|]. split; [reflexivity|].
  exact (@non_std_value_escapes _ _ _ engine_connection_throwing_int unwinding
           [] 0%nat _ Hthrown eq_refl).
Defined.

(** C10 at a run in which no session is left: the [Connection] constructor
    is entered on the handle the [DuckDB] constructor returned. *)
Lemma connection_gets_live_database_witness :
  log (snd (spec_run SpecEngine.exhausted_disk))
    = [EvDuckDB_enter main_db_path;
       EvDuckDB_done {| SpecEngine.db_path := main_db_path |}]
      ++ EvConnection_enter {| SpecEngine.db_path := main_db_path |}
      :: [EvDuckDB_dtor {| SpecEngine.db_path := main_db_path |};
          EvCaught (SpecEngine.connection_error "resource limit exceeded")] /\
  exists st1,
    SpecEngine.open_database main_db_path SpecEngine.exhausted_disk
      = (inr {| SpecEngine.db_path := main_db_path |}, st1) /\
    SpecEngine.live {| SpecEngine.db_path := main_db_path |} st1.
Proof.
  assert (Hlog : log (snd (spec_run SpecEngine.exhausted_disk))
    = [EvDuckDB_enter main_db_path;
       EvDuckDB_done {| SpecEngine.db_path := main_db_path |}]
      ++ EvConnection_enter {| SpecEngine.db_path := main_db_path |}
      :: [EvDuckDB_dtor {| SpecEngine.db_path := main_db_path |};
          EvCaught (SpecEngine.connection_error "resource limit exceeded")]).
  { vm_compute. reflexivity. }
  split; [exact Hlog|].
  destruct (@connection_gets_live_database _ _ _ SpecEngine.engine no_unwinding
              [] SpecEngine.exhausted_disk _ _ _ Hlog) as (_ & _ & st1 & Hdb).
  exists st1. split; [exact Hdb|].
  exact (@open_database_live main_db_path SpecEngine.exhausted_disk _ st1 Hdb).
Defined.

(** X2 at a run in which no session is left: the process ends with exit
    code 1 after the database object was destroyed. *)
Lemma exit_destroys_every_object_witness :
  fst (spec_run SpecEngine.exhausted_disk) = Exit 1 /\
  (forall db,
     In (EvDuckDB_done db) (log (snd (spec_run SpecEngine.exhausted_disk))) ->
     In (EvDuckDB_dtor db) (log (snd (spec_run SpecEngine.exhausted_disk)))) /\
  (forall con,
     In (EvConnection_done con) (log (snd (spec_run SpecEngine.exhausted_disk))) ->
     In (EvConnection_dtor con) (log (snd (spec_run SpecEngine.exhausted_disk)))) /\
  (forall l1 l2 t db,
     log (snd (spec_run SpecEngine.exhausted_disk)) = l1 ++ EvCaught t :: l2 ->
     In (EvDuckDB_done db) l1 -> In (EvDuckDB_dtor db) l1).
Proof.
  assert (Hexit : fst (spec_run SpecEngine.exhausted_disk) = Exit 1).
  { vm_compute. reflexivity. }
  split; [exact Hexit|].
  exact (@exit_destroys_every_object _ _ _ SpecEngine.engine no_unwinding
           [] SpecEngine.exhausted_disk 1 Hexit).
Defined.

(** X3 at a run in which the [Connection] constructor throws an [int] and
    the implementation does not unwind: the engine still counts one live
    [DuckDB] object when the process is gone. *)
Lemma database_destroyed_only_if_unwound_witness :
  @DuckDB_ctor _ _ _ engine_connection_throwing_int main_db_path 0%nat
    = (inr tt, 1%nat) /\
  @Connection_ctor _ _ _ engine_connection_throwing_int tt 1%nat
    = (inl (NonStd "int 42"), 1%nat) /\
  fst (@run_process _ _ _ engine_connection_throwing_int no_unwinding [] 0%nat)
    = Terminate (NonStd "int 42") /\
  List.existsb is_DuckDB_dtor
    (log (snd (@run_process _ _ _ engine_connection_throwing_int no_unwinding
                 [] 0%nat))) = false /\
  store (snd (@run_process _ _ _ engine_connection_throwing_int no_unwinding
                [] 0%nat)) = 1%nat.
Proof.
  split; [reflexivity|]. split; [reflexivity|].
  exact (@database_destroyed_only_if_unwound _ _ _ engine_connection_throwing_int
           no_unwinding [] 0%nat tt "int 42" 1%nat 1%nat eq_refl eq_refl).
Defined.

